(** * Shallow embedding of the RPN calculator of mikan-os
    (apps/rpn_cpp/rpn.cpp).

    The C++ program keeps a global array [long stack[100]] and an [int]
    [stack_ptr]; [Pop] and [Push] index the array without any bounds check,
    [atol] scans a C string without validating its characters, and [main]
    dispatches each [argv[i]] through [strcmp].

    Modelling choices:
    - [long] values are [Z]; every [long] operation that the C++ standard
      leaves undefined on overflow is checked against the 64-bit range and
      ends the run in [Undefined SignedOverflow];
    - an access to [stack[i]] with [i] outside [0, 100) is undefined
      behaviour in C++: the run ends in [Undefined (OOBRead i)] or
      [Undefined (OOBWrite i)];
    - a C string is a [string]; reading past its end yields the terminating
      NUL, and an embedded NUL ends the string as it does in C;
    - [char] is signed (x86-64 System V), so bytes from 128 up read as
      negative numbers. *)

From Stdlib Require Import ZArith String Ascii List Bool Lia.
Import ListNotations.
Open Scope Z_scope.

(** ** Undefined behaviour and the outcome of a computation *)

Inductive ub : Type :=
| OOBRead (i : Z)      (* read of [stack[i]] with [i] outside [0, 100) *)
| OOBWrite (i : Z)     (* write of [stack[i]] with [i] outside [0, 100) *)
| SignedOverflow.      (* a [long] operation left the 64-bit range *)

Inductive outcome (A : Type) : Type :=
| Ok (a : A)
| Undefined (u : ub).
Arguments Ok {A} a.
Arguments Undefined {A} u.

Definition bind {A B : Type} (m : outcome A) (k : A -> outcome B) : outcome B :=
  match m with
  | Ok a => k a
  | Undefined u => Undefined u
  end.

Notation "x <- m ;; k" := (bind m (fun x => k))
  (at level 61, m at next level, right associativity).
Notation "' p <- m ;; k" := (bind m (fun p => k))
  (at level 61, p pattern, m at next level, right associativity).

(** ** Machine integers *)

Definition LONG_MIN : Z := - 2 ^ 63.
Definition LONG_MAX : Z := 2 ^ 63 - 1.
Definition INT_MIN : Z := - 2 ^ 31.
Definition INT_MAX : Z := 2 ^ 31 - 1.

Definition in_long (x : Z) : bool := (LONG_MIN <=? x) && (x <=? LONG_MAX).

(** A [long] result: defined only inside the 64-bit range. *)
Definition long_result (x : Z) : outcome Z :=
  if in_long x then Ok x else Undefined SignedOverflow.

Definition add_long (a b : Z) : outcome Z := long_result (a + b).
Definition sub_long (a b : Z) : outcome Z := long_result (a - b).
Definition mul_long (a b : Z) : outcome Z := long_result (a * b).

(** [static_cast<int>] of a [long]: reduction modulo 2^32 into the
    two's-complement [int] range. *)
Definition to_int (x : Z) : Z := (x + 2 ^ 31) mod 2 ^ 32 - 2 ^ 31.

(** ** C strings *)

(** Value of a (signed) [char]. *)
Definition char_val (c : ascii) : Z :=
  let n := Z.of_nat (nat_of_ascii c) in
  if n <? 128 then n else n - 256.

(** [s[0]]: the first character, or the terminating NUL. *)
Definition cget0 (s : string) : Z :=
  match s with
  | EmptyString => 0
  | String c _ => char_val c
  end.

(** [int strcmp(const char *a, const char *b)]: the loop runs while both
    characters are non-NUL, returns the difference at the first mismatch,
    and otherwise returns [a[i] - b[i]] where it stopped. *)
Fixpoint strcmp (a b : string) : Z :=
  match a, b with
  | String ca ra, String cb rb =>
      if negb (char_val ca =? 0) && negb (char_val cb =? 0) then
        if negb (char_val ca =? char_val cb) then char_val ca - char_val cb
        else strcmp ra rb
      else char_val ca - char_val cb
  | _, _ => cget0 a - cget0 b
  end.

(** [long atol(const char *s)]: [v = v * 10 + s[i] - '0'] for every
    character up to the NUL, evaluated left to right as
    [((v * 10) + s[i]) - '0'] in [long]. *)
Fixpoint atol_loop (v : Z) (s : string) : outcome Z :=
  match s with
  | EmptyString => Ok v
  | String c r =>
      if char_val c =? 0 then Ok v
      else
        v1 <- mul_long v 10 ;;
        v2 <- add_long v1 (char_val c) ;;
        v3 <- sub_long v2 (char_val "0"%char) ;;
        atol_loop v3 r
  end.

Definition atol (s : string) : outcome Z := atol_loop 0 s.

(** ** The global stack *)

Definition CAPACITY : Z := 100.

Record state : Type := mkState {
  stack_ptr : Z;
  stack : Z -> Z
}.

Definition in_bounds (i : Z) : bool := (0 <=? i) && (i <? CAPACITY).

Definition upd (f : Z -> Z) (i v : Z) : Z -> Z :=
  fun j => if j =? i then v else f j.

(** [long Pop() { return stack[stack_ptr--]; }] *)
Definition Pop (s : state) : outcome (Z * state) :=
  let p := stack_ptr s in
  if in_bounds p then Ok (stack s p, mkState (p - 1) (stack s))
  else Undefined (OOBRead p).

(** [void Push(long value) { stack[++stack_ptr] = value; }] *)
Definition Push (s : state) (value : Z) : outcome state :=
  let p := stack_ptr s + 1 in
  if in_bounds p then Ok (mkState p (upd (stack s) p value))
  else Undefined (OOBWrite p).

(** ** [main] *)

(** The loop body of [main] for one argument [argv[i]]. *)
Definition step (s : state) (arg : string) : outcome state :=
  if strcmp arg "+" =? 0 then
    '(b, s1) <- Pop s ;;
    '(a, s2) <- Pop s1 ;;
    r <- add_long a b ;;
    Push s2 r
  else if strcmp arg "-" =? 0 then
    '(b, s1) <- Pop s ;;
    '(a, s2) <- Pop s1 ;;
    r <- sub_long a b ;;
    Push s2 r
  else
    v <- atol arg ;;
    Push s v.

(** The [for] loop over [argv[1..argc-1]]. *)
Fixpoint run (s : state) (args : list string) : outcome state :=
  match args with
  | [] => Ok s
  | a :: rest => s' <- step s a ;; run s' rest
  end.

(** The global array is zero-initialised; [main] sets [stack_ptr = -1]. *)
Definition init : state := mkState (-1) (fun _ => 0).

(** The result adapter at the end of [main]. *)
Definition finish (s : state) : outcome Z :=
  if stack_ptr s <? 0 then Ok 0
  else '(v, _) <- Pop s ;; Ok (to_int v).

(** [main(argc, argv)] with [args] the arguments after the program name. *)
Definition main (args : list string) : outcome Z :=
  s <- run init args ;; finish s.

(** ** Helpers used in the statements *)

(** [Push(v1); ...; Push(vn)] in order. *)
Fixpoint push_all (s : state) (vs : list Z) : outcome state :=
  match vs with
  | [] => Ok s
  | v :: rest => s' <- Push s v ;; push_all s' rest
  end.

(** [n] successive calls of [Pop()], collecting the values popped. *)
Fixpoint pop_n (s : state) (n : nat) : outcome (list Z * state) :=
  match n with
  | O => Ok ([], s)
  | S m =>
      '(v, s1) <- Pop s ;;
      '(vs, s2) <- pop_n s1 m ;;
      Ok (v :: vs, s2)
  end.

Definition is_digit (c : ascii) : bool :=
  (48 <=? Z.of_nat (nat_of_ascii c)) && (Z.of_nat (nat_of_ascii c) <=? 57).

Fixpoint digits_only (s : string) : bool :=
  match s with
  | EmptyString => true
  | String c r => is_digit c && digits_only r
  end.

(** The decimal number a digit string denotes, read left to right. *)
Fixpoint denote_from (acc : Z) (s : string) : Z :=
  match s with
  | EmptyString => acc
  | String c r => denote_from (acc * 10 + (Z.of_nat (nat_of_ascii c) - 48)) r
  end.

Definition denote (s : string) : Z := denote_from 0 s.

Fixpoint no_nul (s : string) : bool :=
  match s with
  | EmptyString => true
  | String c r => negb (Z.of_nat (nat_of_ascii c) =? 0) && no_nul r
  end.

Definition small_operand (t : string) : bool :=
  digits_only t && (denote t <=? LONG_MAX - 48).

(** The loop of [atol] over unbounded integers: the same accumulation
    [v * 10 + s[i] - '0'] up to the NUL, without the [long] range. *)
Fixpoint atol_acc (v : Z) (s : string) : Z :=
  match s with
  | EmptyString => v
  | String c r =>
      if char_val c =? 0 then v
      else atol_acc (v * 10 + char_val c - char_val "0"%char) r
  end.

(** How [main] classifies an argument: [strcmp] against ["+"] or ["-"]
    returns 0. *)
Definition is_operator (t : string) : bool :=
  (strcmp t "+" =? 0) || (strcmp t "-" =? 0).

Definition n_operators (ts : list string) : nat := length (filter is_operator ts).
Definition n_operands (ts : list string) : nat :=
  length (filter (fun t => negb (is_operator t)) ts).

(** ** Lemmas on characters, [strcmp] and [atol] *)

Lemma long_result_ok (x : Z) :
  LONG_MIN <= x <= LONG_MAX -> long_result x = Ok x.
Proof.
  intros H. unfold long_result, in_long.
  replace ((LONG_MIN <=? x) && (x <=? LONG_MAX)) with true
    by (symmetry; apply andb_true_iff; rewrite !Z.leb_le; lia).
  reflexivity.
Qed.

Lemma nat_of_ascii_lt (c : ascii) : (nat_of_ascii c < 256)%nat.
Proof. apply Ascii.nat_ascii_bounded. Qed.

Lemma char_val_nonzero (c : ascii) :
  Z.of_nat (nat_of_ascii c) <> 0 -> char_val c <> 0.
Proof.
  pose proof (nat_of_ascii_lt c). unfold char_val.
  destruct (Z.of_nat (nat_of_ascii c) <? 128) eqn:E; intros; lia.
Qed.

Lemma char_val_inj (c d : ascii) : char_val c = char_val d -> c = d.
Proof.
  pose proof (nat_of_ascii_lt c). pose proof (nat_of_ascii_lt d).
  unfold char_val. intros Heq.
  rewrite <- (ascii_nat_embedding c), <- (ascii_nat_embedding d). f_equal.
  destruct (Z.of_nat (nat_of_ascii c) <? 128) eqn:E1;
  destruct (Z.of_nat (nat_of_ascii d) <? 128) eqn:E2;
  rewrite ?Z.ltb_lt, ?Z.ltb_ge in *; lia.
Qed.

Lemma char_val_digit (c : ascii) :
  is_digit c = true -> char_val c = Z.of_nat (nat_of_ascii c).
Proof.
  unfold is_digit, char_val. rewrite andb_true_iff, !Z.leb_le. intros [H1 H2].
  replace (Z.of_nat (nat_of_ascii c) <? 128) with true by (symmetry; apply Z.ltb_lt; lia).
  reflexivity.
Qed.

(** For a NUL-free argument, [strcmp] against a one-character operator
    symbol is zero only on that very symbol. *)
Lemma strcmp_single_neq (t : string) (o : ascii) :
  no_nul t = true -> Z.of_nat (nat_of_ascii o) <> 0 ->
  t <> String o EmptyString -> strcmp t (String o EmptyString) <> 0.
Proof.
  intros Hn Ho Hne. pose proof (char_val_nonzero o Ho) as Ho'.
  destruct t as [|c r]; simpl.
  - lia.
  - simpl in Hn. apply andb_true_iff in Hn as [Hc Hr].
    apply negb_true_iff, Z.eqb_neq in Hc.
    pose proof (char_val_nonzero c Hc) as Hc'.
    apply Z.eqb_neq in Hc', Ho'. rewrite Hc', Ho'. simpl.
    destruct (char_val c =? char_val o) eqn:E; simpl.
    + apply Z.eqb_eq, char_val_inj in E. subst o.
      destruct r as [|c' r']; [congruence|].
      simpl in Hr. apply andb_true_iff in Hr as [Hc2 _].
      apply negb_true_iff, Z.eqb_neq in Hc2.
      pose proof (char_val_nonzero c' Hc2). simpl. lia.
    + apply Z.eqb_neq in E. lia.
Qed.

Lemma strcmp_self_plus : strcmp "+" "+" = 0.
Proof. reflexivity. Qed.

Lemma strcmp_self_minus : strcmp "-" "-" = 0.
Proof. reflexivity. Qed.

Lemma strcmp_minus_plus : strcmp "-" "+" <> 0.
Proof. discriminate. Qed.

Lemma digits_only_no_nul (t : string) : digits_only t = true -> no_nul t = true.
Proof.
  induction t as [|c r IH]; simpl; auto.
  rewrite !andb_true_iff. intros [Hd Hr]. split; auto.
  unfold is_digit in Hd. apply andb_true_iff in Hd as [Hd _].
  apply negb_true_iff, Z.eqb_neq. apply Z.leb_le in Hd. lia.
Qed.

Lemma digits_not_op (t : string) (o : ascii) :
  is_digit o = false -> digits_only t = true -> t <> String o EmptyString.
Proof. intros Ho Ht ->. simpl in Ht. rewrite Ho in Ht. discriminate. Qed.

Lemma digits_strcmp (t : string) :
  digits_only t = true -> strcmp t "+" <> 0 /\ strcmp t "-" <> 0.
Proof.
  intros H. pose proof (digits_only_no_nul t H) as Hn. split;
  apply strcmp_single_neq; auto; try discriminate;
  apply digits_not_op; auto.
Qed.

(** The step of [main] on an argument that is neither operator. *)
Lemma step_operand (s : state) (t : string) :
  strcmp t "+" <> 0 -> strcmp t "-" <> 0 ->
  step s t = (v <- atol t ;; Push s v).
Proof.
  intros H1 H2. unfold step.
  apply Z.eqb_neq in H1, H2. rewrite H1, H2. reflexivity.
Qed.

Lemma denote_from_ge (acc : Z) (t : string) :
  0 <= acc -> digits_only t = true -> acc <= denote_from acc t.
Proof.
  revert acc. induction t as [|c r IH]; simpl; intros acc Ha Ht; [lia|].
  apply andb_true_iff in Ht as [Hc Hr].
  unfold is_digit in Hc. rewrite andb_true_iff, !Z.leb_le in Hc.
  specialize (IH (acc * 10 + (Z.of_nat (nat_of_ascii c) - 48)) ltac:(lia) Hr). lia.
Qed.

Lemma atol_loop_digits (acc : Z) (t : string) :
  0 <= acc -> digits_only t = true -> denote_from acc t <= LONG_MAX - 48 ->
  atol_loop acc t = Ok (denote_from acc t).
Proof.
  revert acc. induction t as [|c r IH]; simpl; intros acc Ha Ht Hb; [reflexivity|].
  apply andb_true_iff in Ht as [Hc Hr].
  rewrite (char_val_digit c Hc).
  pose proof Hc as Hc'. unfold is_digit in Hc'. rewrite andb_true_iff, !Z.leb_le in Hc'.
  pose proof (denote_from_ge (acc * 10 + (Z.of_nat (nat_of_ascii c) - 48)) r) as Hge.
  specialize (Hge ltac:(lia) Hr).
  replace (Z.of_nat (nat_of_ascii c) =? 0) with false by (symmetry; apply Z.eqb_neq; lia).
  unfold mul_long, add_long, sub_long.
  rewrite (long_result_ok (acc * 10)) by (unfold LONG_MIN, LONG_MAX in *; lia). simpl.
  rewrite long_result_ok by (unfold LONG_MIN, LONG_MAX in *; lia). simpl.
  change (char_val "0") with 48.
  rewrite long_result_ok by (unfold LONG_MIN, LONG_MAX in *; lia). simpl.
  replace (acc * 10 + Z.of_nat (nat_of_ascii c) - 48)
    with (acc * 10 + (Z.of_nat (nat_of_ascii c) - 48)) by lia.
  apply IH; auto; lia.
Qed.

Lemma atol_small (t : string) :
  small_operand t = true -> atol t = Ok (denote t).
Proof.
  unfold small_operand. rewrite andb_true_iff, Z.leb_le. intros [Hd Hb].
  apply atol_loop_digits; auto; lia.
Qed.

(** ** Lemmas on the stack *)

Lemma Pop_ok (s : state) :
  0 <= stack_ptr s <= 99 ->
  Pop s = Ok (stack s (stack_ptr s), mkState (stack_ptr s - 1) (stack s)).
Proof.
  intros H. unfold Pop, in_bounds, CAPACITY.
  replace ((0 <=? stack_ptr s) && (stack_ptr s <? 100)) with true
    by (symmetry; apply andb_true_iff; rewrite Z.leb_le, Z.ltb_lt; lia).
  reflexivity.
Qed.

Lemma Push_ok (s : state) (v : Z) :
  -1 <= stack_ptr s <= 98 ->
  Push s v = Ok (mkState (stack_ptr s + 1) (upd (stack s) (stack_ptr s + 1) v)).
Proof.
  intros H. unfold Push, in_bounds, CAPACITY.
  replace ((0 <=? stack_ptr s + 1) && (stack_ptr s + 1 <? 100)) with true
    by (symmetry; apply andb_true_iff; rewrite Z.leb_le, Z.ltb_lt; lia).
  reflexivity.
Qed.

Lemma Push_full (s : state) (v : Z) :
  stack_ptr s = 99 -> Push s v = Undefined (OOBWrite 100).
Proof. intros H. unfold Push. rewrite H. reflexivity. Qed.

Lemma Pop_range (s s' : state) (v : Z) :
  Pop s = Ok (v, s') -> -1 <= stack_ptr s' <= 98.
Proof.
  unfold Pop, in_bounds, CAPACITY.
  destruct ((0 <=? stack_ptr s) && (stack_ptr s <? 100)) eqn:E; [|discriminate].
  apply andb_true_iff in E as [E1 E2]. apply Z.leb_le in E1. apply Z.ltb_lt in E2.
  intros Heq. inversion Heq. simpl. lia.
Qed.

Lemma Push_range (s s' : state) (v : Z) :
  Push s v = Ok s' -> 0 <= stack_ptr s' <= 99.
Proof.
  unfold Push, in_bounds, CAPACITY.
  destruct ((0 <=? stack_ptr s + 1) && (stack_ptr s + 1 <? 100)) eqn:E; [|discriminate].
  apply andb_true_iff in E as [E1 E2]. apply Z.leb_le in E1. apply Z.ltb_lt in E2.
  intros Heq. inversion Heq. simpl. lia.
Qed.

(** Every successful step ends in a push. *)
Lemma step_range (s s' : state) (t : string) :
  step s t = Ok s' -> 0 <= stack_ptr s' <= 99.
Proof.
  unfold step.
  destruct (strcmp t "+" =? 0); [|destruct (strcmp t "-" =? 0)].
  1,2: destruct (Pop s) as [[b s1]|u]; simpl; [|discriminate];
       destruct (Pop s1) as [[a s2]|u]; simpl; [|discriminate].
  1: destruct (add_long a b) as [r|u]; simpl; [|discriminate].
  2: destruct (sub_long a b) as [r|u]; simpl; [|discriminate].
  3: destruct (atol t) as [v|u]; simpl; [|discriminate].
  all: apply Push_range.
Qed.

(** Invariant of [main]: after a successful loop, [-1 <= stack_ptr <= 99]. *)
Lemma run_range (s s' : state) (args : list string) :
  -1 <= stack_ptr s <= 99 -> run s args = Ok s' -> -1 <= stack_ptr s' <= 99.
Proof.
  revert s. induction args as [|a rest IH]; simpl; intros s Hs H.
  - inversion H. subst. assumption.
  - destruct (step s a) as [s1|u] eqn:E; simpl in H; [|discriminate].
    apply (IH s1); auto. apply step_range in E. lia.
Qed.

Lemma run_app (s : state) (xs ys : list string) :
  run s (xs ++ ys) = (s' <- run s xs ;; run s' ys).
Proof.
  revert s. induction xs as [|x xs IH]; simpl; intros s; [reflexivity|].
  destruct (step s x); simpl; auto.
Qed.

(** A run of small operands pushes each in turn. *)
Lemma run_operands (ts : list string) (s : state) :
  forallb small_operand ts = true ->
  -1 <= stack_ptr s -> stack_ptr s + Z.of_nat (length ts) <= 99 ->
  exists s', run s ts = Ok s' /\
    stack_ptr s' = stack_ptr s + Z.of_nat (length ts) /\
    (ts <> [] -> stack s' (stack_ptr s') = denote (last ts EmptyString)).
Proof.
  revert s. induction ts as [|t rest IH]; simpl; intros s Hall H1 H2.
  - exists s. repeat split; auto. lia. congruence.
  - apply andb_true_iff in Hall as [Ht Hr].
    assert (Hd : digits_only t = true)
      by (unfold small_operand in Ht; apply andb_true_iff in Ht; tauto).
    destruct (digits_strcmp t Hd) as [Hp Hm].
    rewrite (step_operand s t Hp Hm), (atol_small t Ht). simpl.
    rewrite Push_ok by lia. simpl.
    destruct (IH (mkState (stack_ptr s + 1) (upd (stack s) (stack_ptr s + 1) (denote t))))
      as [s' [Hrun [Hptr Htop]]]; simpl; auto; try lia.
    exists s'. rewrite Hrun. simpl in Hptr. repeat split; auto. lia.
    intros _. destruct rest as [|t' rest'].
    + simpl in Hrun. inversion Hrun. subst s'. simpl. unfold upd. rewrite Z.eqb_refl.
      reflexivity.
    + apply Htop. discriminate.
Qed.

Lemma pop_n_add (s : state) (m n : nat) :
  pop_n s (m + n) =
    ('(xs, s1) <- pop_n s m ;; '(ys, s2) <- pop_n s1 n ;; Ok (xs ++ ys, s2)).
Proof.
  revert s. induction m as [|m IH]; simpl; intros s.
  - destruct (pop_n s n) as [[ys s2]|u]; reflexivity.
  - destruct (Pop s) as [[v s1]|u]; simpl; [|reflexivity].
    rewrite IH. destruct (pop_n s1 m) as [[xs s2]|u]; simpl; [|reflexivity].
    destruct (pop_n s2 n) as [[ys s3]|u]; reflexivity.
Qed.

Lemma push_all_pop_n (vs : list Z) (s : state) :
  -1 <= stack_ptr s -> stack_ptr s + Z.of_nat (length vs) <= 99 ->
  exists s', push_all s vs = Ok s' /\
    stack_ptr s' = stack_ptr s + Z.of_nat (length vs) /\
    (forall i, i <= stack_ptr s -> stack s' i = stack s i) /\
    pop_n s' (length vs) = Ok (rev vs, mkState (stack_ptr s) (stack s')).
Proof.
  revert s. induction vs as [|v rest IH]; cbn [length push_all]; intros s H1 H2.
  - exists s. destruct s as [p a]. simpl. repeat split; auto. lia.
  - rewrite Push_ok by lia. cbn [bind].
    destruct (IH (mkState (stack_ptr s + 1) (upd (stack s) (stack_ptr s + 1) v)))
      as [s' [Hp [Hptr [Hkeep Hpop]]]]; try (simpl; lia).
    simpl in Hptr, Hkeep, Hpop.
    exists s'. split; [exact Hp|]. split; [lia|]. split.
    + intros i Hi. rewrite Hkeep by lia. unfold upd.
      replace (i =? stack_ptr s + 1) with false by (symmetry; apply Z.eqb_neq; lia).
      reflexivity.
    + rewrite <- Nat.add_1_r, pop_n_add, Hpop. simpl.
      rewrite Pop_ok by (simpl; lia). simpl.
      rewrite Hkeep by lia. unfold upd. rewrite Z.eqb_refl.
      replace (stack_ptr s + 1 - 1) with (stack_ptr s) by lia. reflexivity.
Qed.

Lemma to_int_range (x : Z) : INT_MIN <= to_int x <= INT_MAX.
Proof.
  unfold to_int, INT_MIN, INT_MAX.
  pose proof (Z.mod_pos_bound (x + 2 ^ 31) (2 ^ 32) ltac:(lia)). lia.
Qed.

Lemma to_int_congr (x : Z) : (to_int x - x) mod 2 ^ 32 = 0.
Proof.
  unfold to_int. rewrite (Z.mod_eq (x + 2 ^ 31) (2 ^ 32)) by lia.
  replace (x + 2 ^ 31 - 2 ^ 32 * ((x + 2 ^ 31) / 2 ^ 32) - 2 ^ 31 - x)
    with (- ((x + 2 ^ 31) / 2 ^ 32) * 2 ^ 32) by ring.
  apply Z.mod_mul. lia.
Qed.

(** The end of [main] after a successful loop that left a value. *)
Lemma main_nonempty (args : list string) (s : state) :
  run init args = Ok s -> 0 <= stack_ptr s ->
  main args = Ok (to_int (stack s (stack_ptr s))).
Proof.
  intros Hrun Hp. pose proof (run_range init s args ltac:(simpl; lia) Hrun) as Hr.
  unfold main. rewrite Hrun. simpl. unfold finish.
  replace (stack_ptr s <? 0) with false by (symmetry; apply Z.ltb_ge; lia).
  rewrite Pop_ok by lia. reflexivity.
Qed.

(** The step of [main] on an operator symbol. *)
Lemma step_binop (s : state) :
  1 <= stack_ptr s <= 99 ->
  let p := stack_ptr s in
  step s "+" = (r <- add_long (stack s (p - 1)) (stack s p) ;;
                Ok (mkState (p - 1) (upd (stack s) (p - 1) r))) /\
  step s "-" = (r <- sub_long (stack s (p - 1)) (stack s p) ;;
                Ok (mkState (p - 1) (upd (stack s) (p - 1) r))).
Proof.
  intros H. cbv zeta. unfold step.
  change (strcmp "+" "+" =? 0) with true.
  change (strcmp "-" "+" =? 0) with false.
  change (strcmp "-" "-" =? 0) with true. cbv iota.
  rewrite Pop_ok by lia. simpl.
  rewrite Pop_ok by (simpl; lia). simpl.
  split; [destruct (add_long (stack s (stack_ptr s - 1)) (stack s (stack_ptr s))) as [r|u]
         |destruct (sub_long (stack s (stack_ptr s - 1)) (stack s (stack_ptr s))) as [r|u]];
  simpl; try reflexivity;
  rewrite Push_ok by (simpl; lia); simpl;
  replace (stack_ptr s - 1 - 1 + 1) with (stack_ptr s - 1) by lia; reflexivity.
Qed.

(** A run of more than 100 small operands: the first 100 are pushed and
    the 101st push writes [stack[100]]. *)
Lemma run_operands_overflow (ts : list string) :
  forallb small_operand ts = true -> (100 < length ts)%nat ->
  (exists s, run init (firstn 100 ts) = Ok s /\ stack_ptr s = 99) /\
  run init ts = Undefined (OOBWrite 100).
Proof.
  intros Hall Hlen.
  rewrite <- (firstn_skipn 100 ts) in Hall. rewrite forallb_app in Hall.
  apply andb_true_iff in Hall as [Hf Hs].
  assert (Hl : length (firstn 100 ts) = 100%nat)
    by (rewrite length_firstn; lia).
  destruct (run_operands (firstn 100 ts) init Hf) as [s [Hrun [Hp _]]];
    rewrite ?Hl; simpl; try lia.
  rewrite Hl in Hp. simpl in Hp.
  split; [exists s; split; auto|].
  rewrite <- (firstn_skipn 100 ts), run_app, Hrun. cbn [bind].
  destruct (skipn 100 ts) as [|t rest] eqn:E.
  - exfalso. pose proof (length_skipn 100 ts) as Hsk. rewrite E in Hsk. simpl in Hsk. lia.
  - simpl in Hs. apply andb_true_iff in Hs as [Ht _].
    assert (Hd : digits_only t = true)
      by (unfold small_operand in Ht; apply andb_true_iff in Ht; tauto).
    destruct (digits_strcmp t Hd) as [H1 H2].
    cbn [run]. rewrite (step_operand s t H1 H2), (atol_small t Ht). cbn [bind].
    rewrite Push_full by assumption. reflexivity.
Qed.

(** [atol] on a digit-only token whose value exceeds [LONG_MAX]: some
    [long] operation of the accumulation overflows. *)
Lemma atol_loop_digits_overflow (acc : Z) (t : string) :
  0 <= acc <= LONG_MAX -> digits_only t = true -> LONG_MAX < denote_from acc t ->
  atol_loop acc t = Undefined SignedOverflow.
Proof.
  revert acc. induction t as [|c r IH]; simpl; intros acc Ha Ht Hb; [lia|].
  apply andb_true_iff in Ht as [Hc Hr].
  rewrite (char_val_digit c Hc).
  pose proof Hc as Hc'. unfold is_digit in Hc'. rewrite andb_true_iff, !Z.leb_le in Hc'.
  replace (Z.of_nat (nat_of_ascii c) =? 0) with false by (symmetry; apply Z.eqb_neq; lia).
  unfold mul_long, add_long, sub_long.
  destruct (Z_le_gt_dec (acc * 10) LONG_MAX) as [H1|H1].
  2: { unfold long_result, in_long.
       replace (acc * 10 <=? LONG_MAX) with false by (symmetry; apply Z.leb_gt; lia).
       rewrite andb_false_r. reflexivity. }
  rewrite (long_result_ok (acc * 10)) by (unfold LONG_MIN, LONG_MAX in *; lia). simpl.
  destruct (Z_le_gt_dec (acc * 10 + Z.of_nat (nat_of_ascii c)) LONG_MAX) as [H2|H2].
  2: { unfold long_result, in_long.
       replace (acc * 10 + Z.of_nat (nat_of_ascii c) <=? LONG_MAX) with false
         by (symmetry; apply Z.leb_gt; lia).
       rewrite andb_false_r. reflexivity. }
  rewrite long_result_ok by (unfold LONG_MIN, LONG_MAX in *; lia). simpl.
  change (char_val "0") with 48.
  rewrite long_result_ok by (unfold LONG_MIN, LONG_MAX in *; lia). simpl.
  replace (acc * 10 + Z.of_nat (nat_of_ascii c) - 48)
    with (acc * 10 + (Z.of_nat (nat_of_ascii c) - 48)) by lia.
  apply IH; auto; lia.
Qed.

(** ** The claims *)

(** C1 (amended): on ["+"] or ["-"] [main] pops [b] (the top), then [a] (the value
    pushed before [b]), and pushes [a + b] or [a - b] (a signed overflow
    if the result leaves the [long] range); hence for digit tokens [x] and
    [y] of value at most [LONG_MAX - 48], [[x; y; "-"]] leaves [x - y] on
    the stack. *)
Theorem C1_operator_order (s : state) :
  1 <= stack_ptr s <= 99 ->
  (step s "+" = (r <- add_long (stack s (stack_ptr s - 1)) (stack s (stack_ptr s)) ;;
                 Ok (mkState (stack_ptr s - 1) (upd (stack s) (stack_ptr s - 1) r))) /\
   step s "-" = (r <- sub_long (stack s (stack_ptr s - 1)) (stack s (stack_ptr s)) ;;
                 Ok (mkState (stack_ptr s - 1) (upd (stack s) (stack_ptr s - 1) r)))) /\
  (forall x y : string, small_operand x = true -> small_operand y = true ->
     exists s', run init [x; y; "-"%string] = Ok s' /\ stack_ptr s' = 0 /\
                stack s' 0 = denote x - denote y).
Proof.
  intros H. split; [exact (step_binop s H)|].
  intros x y Hx Hy.
  assert (Hdx : digits_only x = true)
    by (unfold small_operand in Hx; apply andb_true_iff in Hx; tauto).
  assert (Hdy : digits_only y = true)
    by (unfold small_operand in Hy; apply andb_true_iff in Hy; tauto).
  assert (Bx : 0 <= denote x <= LONG_MAX - 48).
  { unfold small_operand in Hx. apply andb_true_iff in Hx as [_ Hx].
    apply Z.leb_le in Hx. pose proof (denote_from_ge 0 x ltac:(lia) Hdx).
    unfold denote in *. lia. }
  assert (By : 0 <= denote y <= LONG_MAX - 48).
  { unfold small_operand in Hy. apply andb_true_iff in Hy as [_ Hy].
    apply Z.leb_le in Hy. pose proof (denote_from_ge 0 y ltac:(lia) Hdy).
    unfold denote in *. lia. }
  destruct (digits_strcmp x Hdx) as [Hx1 Hx2].
  destruct (digits_strcmp y Hdy) as [Hy1 Hy2].
  cbn [run]. rewrite (step_operand init x Hx1 Hx2), (atol_small x Hx). cbn [bind].
  rewrite Push_ok by (simpl; lia). cbn [bind stack_ptr stack init].
  rewrite step_operand, (atol_small y Hy) by assumption. cbn [bind].
  rewrite Push_ok by (simpl; lia). cbn [bind stack_ptr stack].
  set (s2 := mkState 1 (upd (upd (fun _ => 0) 0 (denote x)) 1 (denote y))).
  destruct (step_binop s2 ltac:(simpl; lia)) as [_ Hm].
  replace (-1 + 1 + 1) with 1 by lia. replace (-1 + 1) with 0 by lia.
  fold s2. rewrite Hm. simpl.
  unfold sub_long, s2, upd. simpl.
  rewrite long_result_ok by (unfold LONG_MIN, LONG_MAX in *; lia).
  simpl. eexists. split; [reflexivity|]. split; [reflexivity|].
  simpl. unfold upd. simpl. reflexivity.
Qed.

Definition C1_state : state :=
  mkState 1 (upd (upd (fun _ => 0) 0 10) 1 3).

Lemma C1_operator_order_witness :
  1 <= stack_ptr C1_state <= 99 /\
  step C1_state "-" = Ok (mkState 0 (upd (stack C1_state) 0 7)).
Proof.
  split; [simpl; lia|].
  destruct (C1_operator_order C1_state ltac:(simpl; lia)) as [[_ Hm] _].
  rewrite Hm. reflexivity.
Defined.

(** C1 as stated fails for digit tokens beyond [LONG_MAX - 48]: the first
    operand already overflows in [atol], so [[x; y; "-"]] yields no
    difference. *)
Lemma C1_counterexample :
  digits_only "9223372036854775807" = true /\
  run init ["9223372036854775807"; "1"; "-"]%string = Undefined SignedOverflow.
Proof. split; reflexivity. Qed.

(** C2 (amended): with fewer than two values on the stack an operator
    makes [Pop] read [stack[-1]], outside the array: undefined behaviour,
    no underflow check. *)
Theorem C2_operator_reads_below_stack (s : state) (op : string) :
  stack_ptr s = -1 \/ stack_ptr s = 0 -> op = "+"%string \/ op = "-"%string ->
  step s op = Undefined (OOBRead (-1)).
Proof.
  intros Hp Hop. unfold step.
  destruct Hop as [-> | ->];
  [change (strcmp "+" "+" =? 0) with true
  |change (strcmp "-" "+" =? 0) with false; change (strcmp "-" "-" =? 0) with true];
  cbv iota; (destruct Hp as [Hp | Hp];
   [unfold Pop; rewrite Hp; reflexivity
   |rewrite Pop_ok by lia; simpl; unfold Pop; simpl; rewrite Hp; reflexivity]).
Qed.

Lemma C2_operator_reads_below_stack_witness :
  step init "+" = Undefined (OOBRead (-1)) /\
  step (mkState 0 (upd (fun _ => 0) 0 5)) "-" = Undefined (OOBRead (-1)).
Proof.
  split; apply C2_operator_reads_below_stack; simpl; auto.
Defined.

(** C2 as stated fails: ["+"] alone, and ["5"; "+"], read [stack[-1]]. *)
Lemma C2_counterexample :
  main ["+"]%string = Undefined (OOBRead (-1)) /\
  main ["5"; "+"]%string = Undefined (OOBRead (-1)).
Proof. split; reflexivity. Qed.

(** C3 (amended): any NUL-free argument other than ["+"] and ["-"] goes to
    [atol] unvalidated and the value it returns is pushed. *)
Theorem C3_operand_unvalidated (s : state) (t : string) :
  no_nul t = true -> t <> "+"%string -> t <> "-"%string ->
  step s t = (v <- atol t ;; Push s v).
Proof.
  intros Hn Hp Hm. apply step_operand; apply strcmp_single_neq; auto; discriminate.
Qed.

Lemma C3_operand_unvalidated_witness :
  step init "3x" = Ok (mkState 0 (upd (fun _ => 0) 0 102)).
Proof.
  rewrite (C3_operand_unvalidated init "3x"); [reflexivity|reflexivity|discriminate|discriminate].
Defined.

(** C3 as stated fails: ["3x"] yields 102 and ["*"] yields -6. *)
Lemma C3_counterexample :
  main ["3x"]%string = Ok 102 /\ main ["*"]%string = Ok (-6).
Proof. split; reflexivity. Qed.

(** C4 (amended): with more than 100 small digit-only operands and no
    operator, the first 100 are pushed ([stack_ptr] reaches 99) and the
    101st push writes [stack[100]], one past the array: undefined
    behaviour, no capacity check. *)
Theorem C4_push_past_capacity (ts : list string) :
  forallb small_operand ts = true -> (100 < length ts)%nat ->
  (exists s, run init (firstn 100 ts) = Ok s /\ stack_ptr s = 99) /\
  run init ts = Undefined (OOBWrite 100).
Proof. apply run_operands_overflow. Qed.

Lemma C4_push_past_capacity_witness :
  run init (repeat "1"%string 101) = Undefined (OOBWrite 100).
Proof.
  apply (C4_push_past_capacity (repeat "1"%string 101)); vm_compute; reflexivity.
Defined.

(** C4 as stated fails: 101 operands end in a write of [stack[100]]. *)
Lemma C4_counterexample :
  main (repeat "1"%string 101) = Undefined (OOBWrite 100).
Proof. vm_compute. reflexivity. Qed.

(** C5 (amended): for a digit-only token whose value [N] satisfies
    [N <= LONG_MAX - 48], [atol] returns [N], the left-to-right
    accumulation [v * 10 + digit] (leading zeros accepted); for a
    digit-only token whose value exceeds [LONG_MAX] the accumulation
    overflows. *)
Theorem C5_atol_digits (t : string) :
  digits_only t = true ->
  (denote t <= LONG_MAX - 48 -> atol t = Ok (denote t)) /\
  (LONG_MAX < denote t -> atol t = Undefined SignedOverflow).
Proof.
  intros Hd. split.
  - intros Hb. apply atol_small. unfold small_operand.
    rewrite Hd. apply Z.leb_le. exact Hb.
  - intros Hb. apply atol_loop_digits_overflow; auto.
    unfold LONG_MAX. lia.
Qed.

Lemma C5_atol_digits_witness :
  atol "007" = Ok 7 /\
  atol "99999999999999999999" = Undefined SignedOverflow.
Proof.
  split.
  - apply (C5_atol_digits "007"); [reflexivity | vm_compute; discriminate].
  - apply (C5_atol_digits "99999999999999999999"); [reflexivity | vm_compute; reflexivity].
Defined.

(** C5 as stated fails: a digit-only token beyond the [long] range makes
    the accumulation overflow. *)
Lemma C5_counterexample :
  digits_only "99999999999999999999" = true /\
  atol "99999999999999999999" = Undefined SignedOverflow.
Proof. split; reflexivity. Qed.

(** C6: after a successful loop that leaves the stack non-empty, [main]
    pops the top once and returns it (as [int]); the values below it play
    no part and raise no error. *)
Theorem C6_result_is_top (args : list string) (s : state) :
  run init args = Ok s -> 0 <= stack_ptr s ->
  main args = Ok (to_int (stack s (stack_ptr s))).
Proof. apply main_nonempty. Qed.

Lemma C6_result_is_top_witness :
  main ["3"; "5"; "9"]%string = Ok (to_int 9).
Proof.
  apply (C6_result_is_top _ (mkState 2 (upd (upd (upd (fun _ => 0) 0 3) 1 5) 2 9)));
  [reflexivity | simpl; lia].
Defined.

(** C7 (amended): for a non-empty list of digit-only operands, each of
    value at most [LONG_MAX - 48]: with at most 100 of them the loop
    succeeds, the stack top is the value of the last token, and [main]
    returns that value reduced to [int]; with more than 100 the 101st push
    writes [stack[100]] and [main] has undefined behaviour. *)
Theorem C7_operands_give_last (ts : list string) :
  ts <> [] -> forallb small_operand ts = true ->
  ((length ts <= 100)%nat ->
   exists s, run init ts = Ok s /\
     stack s (stack_ptr s) = denote (last ts EmptyString) /\
     main ts = Ok (to_int (denote (last ts EmptyString)))) /\
  ((100 < length ts)%nat ->
   run init ts = Undefined (OOBWrite 100) /\ main ts = Undefined (OOBWrite 100)).
Proof.
  intros Hne Hall. split.
  - intros Hlen.
    assert (H1 : -1 <= stack_ptr init) by (cbn [stack_ptr init]; lia).
    assert (H2 : stack_ptr init + Z.of_nat (length ts) <= 99) by (cbn [stack_ptr init]; lia).
    destruct (run_operands ts init Hall H1 H2) as [s [Hrun [Hp Htop]]].
    exists s. split; [exact Hrun|]. specialize (Htop Hne). split; [exact Htop|].
    rewrite <- Htop. apply main_nonempty; auto.
    rewrite Hp. cbn [stack_ptr init].
    destruct ts; [congruence|]. cbn [length]. lia.
  - intros Hlen. destruct (run_operands_overflow ts Hall Hlen) as [_ Hrun].
    split; [exact Hrun|]. unfold main. rewrite Hrun. reflexivity.
Qed.

Lemma C7_operands_give_last_witness :
  (exists s, run init ["3"; "5"; "9"]%string = Ok s /\
     stack s (stack_ptr s) = 9 /\ main ["3"; "5"; "9"]%string = Ok 9) /\
  main (repeat "7"%string 101) = Undefined (OOBWrite 100).
Proof.
  split.
  - apply (C7_operands_give_last ["3"; "5"; "9"]%string);
    [discriminate | reflexivity | simpl; lia].
  - apply (C7_operands_give_last (repeat "7"%string 101));
    [discriminate | vm_compute; reflexivity | simpl; lia].
Defined.

(** C7 as stated fails: 101 operands never produce a result. *)
Lemma C7_counterexample :
  main (repeat "7"%string 101) = Undefined (OOBWrite 100).
Proof. vm_compute. reflexivity. Qed.

(** C8: with no arguments the loop does nothing, [stack_ptr] stays [-1]
    and [main] returns 0. *)
Theorem C8_empty_input :
  run init [] = Ok init /\ stack_ptr init = -1 /\ main [] = Ok 0.
Proof. repeat split. Qed.

(** C9: from an empty stack, [n] pushes ([1 <= n <= 100]) followed by [n]
    pops return the values in reverse order and leave the stack empty. *)
Theorem C9_lifo (vs : list Z) (arr : Z -> Z) :
  (1 <= length vs <= 100)%nat ->
  exists s' s'', push_all (mkState (-1) arr) vs = Ok s' /\
    pop_n s' (length vs) = Ok (rev vs, s'') /\ stack_ptr s'' = -1.
Proof.
  intros Hlen.
  assert (H1 : -1 <= stack_ptr (mkState (-1) arr)) by (cbn [stack_ptr]; lia).
  assert (H2 : stack_ptr (mkState (-1) arr) + Z.of_nat (length vs) <= 99)
    by (cbn [stack_ptr]; lia).
  destruct (push_all_pop_n vs (mkState (-1) arr) H1 H2) as [s' [Hp [_ [_ Hpop]]]].
  exists s', (mkState (-1) (stack s')). repeat split; auto.
Qed.

Lemma C9_lifo_witness :
  exists s' s'', push_all (mkState (-1) (fun _ => 0)) [1; 2; 3] = Ok s' /\
    pop_n s' 3 = Ok ([3; 2; 1], s'') /\ stack_ptr s'' = -1.
Proof. apply (C9_lifo [1; 2; 3] (fun _ => 0)). simpl. lia. Defined.

(** C10: the value [main] returns is [static_cast<int>] of the [long]
    stack top: the unique [int] congruent to it modulo 2^32, so values
    outside the [int] range wrap. *)
Theorem C10_result_truncated (args : list string) (s : state) :
  run init args = Ok s -> 0 <= stack_ptr s ->
  exists r, main args = Ok r /\ INT_MIN <= r <= INT_MAX /\
    (r - stack s (stack_ptr s)) mod 2 ^ 32 = 0.
Proof.
  intros Hrun Hp. exists (to_int (stack s (stack_ptr s))).
  split; [apply main_nonempty; auto|]. split; [apply to_int_range|apply to_int_congr].
Qed.

Lemma C10_result_truncated_witness :
  exists r, main ["4294967297"]%string = Ok r /\ INT_MIN <= r <= INT_MAX /\
    (r - 4294967297) mod 2 ^ 32 = 0.
Proof.
  apply (C10_result_truncated _ (mkState 0 (upd (fun _ => 0) 0 4294967297)));
  [reflexivity | simpl; lia].
Defined.

(** ** Further properties of the code *)

(** [strcmp] is antisymmetric: swapping the arguments negates the result. *)
Theorem strcmp_antisym (a b : string) : strcmp b a = - strcmp a b.
Proof.
  revert b. induction a as [|ca ra IH]; intros b; destruct b as [|cb rb]; simpl; try lia.
  rewrite (Z.eqb_sym (char_val cb) (char_val ca)).
  destruct (char_val ca =? 0), (char_val cb =? 0), (char_val ca =? char_val cb);
  simpl; try lia; apply IH.
Qed.

(** On NUL-free strings (every C string as [argv] delivers it) [strcmp]
    returns 0 exactly on equal strings. *)
Theorem strcmp_eq_iff (a b : string) :
  no_nul a = true -> no_nul b = true -> (strcmp a b = 0 <-> a = b).
Proof.
  revert b. induction a as [|ca ra IH]; intros b Ha Hb; destruct b as [|cb rb].
  - simpl. tauto.
  - simpl in Hb. apply andb_true_iff in Hb as [Hc _].
    apply negb_true_iff, Z.eqb_neq, char_val_nonzero in Hc.
    simpl. split; [lia | discriminate].
  - simpl in Ha. apply andb_true_iff in Ha as [Hc _].
    apply negb_true_iff, Z.eqb_neq, char_val_nonzero in Hc.
    simpl. split; [lia | discriminate].
  - simpl in Ha, Hb. apply andb_true_iff in Ha as [Hca Hra].
    apply andb_true_iff in Hb as [Hcb Hrb].
    apply negb_true_iff, Z.eqb_neq, char_val_nonzero, Z.eqb_neq in Hca, Hcb.
    simpl. rewrite Hca, Hcb. simpl.
    destruct (char_val ca =? char_val cb) eqn:E; simpl.
    + apply Z.eqb_eq, char_val_inj in E. subst cb.
      rewrite (IH rb Hra Hrb). split; [intros ->; reflexivity | intros H; inversion H; auto].
    + apply Z.eqb_neq in E. split; [lia|]. intros H; inversion H; subst. lia.
Qed.

Lemma strcmp_eq_iff_witness :
  (strcmp "12" "12" = 0 <-> "12"%string = "12"%string).
Proof. apply strcmp_eq_iff; reflexivity. Defined.

(** Leading zeros do not change what [atol] computes. *)
Theorem atol_leading_zero (t : string) : atol (String "0" t) = atol t.
Proof. reflexivity. Qed.

(** When [atol] is defined, its value is the unbounded accumulation of
    [v * 10 + s[i] - '0'] over every character up to the NUL, digit or not. *)
Theorem atol_value (t : string) (v : Z) : atol t = Ok v -> v = atol_acc 0 t.
Proof.
  unfold atol. generalize 0 as acc. revert v.
  induction t as [|c r IH]; simpl; intros v acc H.
  - inversion H. reflexivity.
  - destruct (char_val c =? 0); [inversion H; reflexivity|].
    unfold mul_long, add_long, sub_long, long_result in H.
    destruct (in_long (acc * 10)); simpl in H; [|discriminate].
    destruct (in_long (acc * 10 + char_val c)); simpl in H; [|discriminate].
    destruct (in_long (acc * 10 + char_val c - char_val "0")); simpl in H; [|discriminate].
    apply IH. exact H.
Qed.

Lemma atol_value_witness : 102 = atol_acc 0 "3x".
Proof. apply (atol_value "3x" 102). reflexivity. Defined.

Lemma Pop_ptr (s s' : state) (v : Z) :
  Pop s = Ok (v, s') -> stack_ptr s' = stack_ptr s - 1.
Proof.
  unfold Pop. destruct (in_bounds (stack_ptr s)); [|discriminate].
  intros H. inversion H. reflexivity.
Qed.

Lemma Push_ptr (s s' : state) (v : Z) :
  Push s v = Ok s' -> stack_ptr s' = stack_ptr s + 1.
Proof.
  unfold Push. destruct (in_bounds (stack_ptr s + 1)); [|discriminate].
  intros H. inversion H. reflexivity.
Qed.

Lemma step_ptr (s s' : state) (t : string) :
  step s t = Ok s' ->
  stack_ptr s' = stack_ptr s + (if is_operator t then -1 else 1).
Proof.
  unfold step, is_operator.
  destruct (strcmp t "+" =? 0); [|destruct (strcmp t "-" =? 0)]; simpl.
  1,2: destruct (Pop s) as [[b s1]|u] eqn:E1; simpl; [|discriminate];
       destruct (Pop s1) as [[a s2]|u] eqn:E2; simpl; [|discriminate];
       apply Pop_ptr in E1; apply Pop_ptr in E2.
  1: destruct (add_long a b) as [r|u]; simpl; [|discriminate].
  2: destruct (sub_long a b) as [r|u]; simpl; [|discriminate].
  1,2: intros H; apply Push_ptr in H; lia.
  destruct (atol t) as [v|u]; simpl; [|discriminate].
  intros H; apply Push_ptr in H; lia.
Qed.

(** Stack height bookkeeping of the loop of [main]: every operand raises
    [stack_ptr] by one, every operator lowers it by one. *)
Theorem run_height (s s' : state) (ts : list string) :
  run s ts = Ok s' ->
  stack_ptr s' = stack_ptr s + Z.of_nat (n_operands ts) - Z.of_nat (n_operators ts).
Proof.
  unfold n_operands, n_operators. revert s.
  induction ts as [|t rest IH]; simpl; intros s H.
  - inversion H. lia.
  - destruct (step s t) as [s1|u] eqn:E; simpl in H; [|discriminate].
    apply step_ptr in E. apply IH in H.
    destruct (is_operator t); simpl; lia.
Qed.

Lemma run_height_witness :
  stack_ptr init = -1 /\
  exists s', run init ["3"; "4"; "+"; "5"]%string = Ok s' /\
    stack_ptr s' = -1 + Z.of_nat (n_operands ["3"; "4"; "+"; "5"]%string)
                      - Z.of_nat (n_operators ["3"; "4"; "+"; "5"]%string).
Proof.
  split; [reflexivity|].
  eexists. split; [reflexivity|].
  apply (run_height init _ ["3"; "4"; "+"; "5"]%string). reflexivity.
Defined.

Lemma run_nonempty_range (s s' : state) (ts : list string) :
  ts <> [] -> run s ts = Ok s' -> 0 <= stack_ptr s' <= 99.
Proof.
  revert s. induction ts as [|t rest IH]; intros s Hne H; [congruence|].
  simpl in H. destruct (step s t) as [s1|u] eqn:E; simpl in H; [|discriminate].
  destruct rest as [|t' rest'].
  - simpl in H. inversion H. subst. eapply step_range. exact E.
  - eapply IH; [discriminate | exact H].
Qed.

(** In a run of [main] that succeeds, every non-empty prefix of the
    arguments has between 1 and 100 more operands than operators. *)
Theorem prefix_balance (p q : list string) (s : state) :
  run init (p ++ q) = Ok s -> p <> [] ->
  1 <= Z.of_nat (n_operands p) - Z.of_nat (n_operators p) <= 100.
Proof.
  intros H Hne. rewrite run_app in H.
  destruct (run init p) as [sp|u] eqn:E; simpl in H; [|discriminate].
  pose proof (run_nonempty_range init sp p Hne E) as Hr.
  apply run_height in E. cbn [stack_ptr init] in E. lia.
Qed.

Lemma prefix_balance_witness :
  1 <= Z.of_nat (n_operands ["3"; "4"]%string) - Z.of_nat (n_operators ["3"; "4"]%string) <= 100.
Proof.
  apply (prefix_balance ["3"; "4"]%string ["+"]%string
           (mkState 0 (upd (upd (upd (fun _ => 0) 0 3) 1 4) 0 7)));
  [reflexivity | discriminate].
Defined.

(** Two digit-only operands followed by ["+"]: [main] returns their sum
    reduced to [int] when it fits in [long], and the addition overflows
    ([Undefined SignedOverflow]) otherwise. *)
Theorem main_add_two (x y : string) :
  small_operand x = true -> small_operand y = true ->
  main [x; y; "+"%string] = (r <- add_long (denote x) (denote y) ;; Ok (to_int r)).
Proof.
  intros Hx Hy.
  assert (Hdx : digits_only x = true)
    by (unfold small_operand in Hx; apply andb_true_iff in Hx; tauto).
  assert (Hdy : digits_only y = true)
    by (unfold small_operand in Hy; apply andb_true_iff in Hy; tauto).
  destruct (digits_strcmp x Hdx) as [Hx1 Hx2].
  destruct (digits_strcmp y Hdy) as [Hy1 Hy2].
  unfold main. cbn [run].
  rewrite (step_operand init x Hx1 Hx2), (atol_small x Hx). cbn [bind].
  rewrite Push_ok by (simpl; lia). cbn [bind stack_ptr stack init].
  rewrite step_operand, (atol_small y Hy) by assumption. cbn [bind].
  rewrite Push_ok by (simpl; lia). cbn [bind stack_ptr stack].
  set (s2 := mkState 1 (upd (upd (fun _ => 0) 0 (denote x)) 1 (denote y))).
  destruct (step_binop s2 ltac:(simpl; lia)) as [Hp _].
  replace (-1 + 1 + 1) with 1 by lia. replace (-1 + 1) with 0 by lia.
  fold s2. rewrite Hp. unfold s2, upd. simpl.
  destruct (add_long (denote x) (denote y)) as [r|u]; simpl; [|reflexivity].
  reflexivity.
Qed.

Lemma main_add_two_witness : main ["3"; "4"; "+"]%string = Ok (to_int 7).
Proof. rewrite (main_add_two "3" "4"); reflexivity. Defined.

(** Whatever the arguments, a defined result of [main] lies in the [int]
    range. *)
Theorem main_int_range (args : list string) (r : Z) :
  main args = Ok r -> INT_MIN <= r <= INT_MAX.
Proof.
  unfold main. destruct (run init args) as [s|u]; simpl; [|discriminate].
  unfold finish. destruct (stack_ptr s <? 0).
  - intros H. inversion H. unfold INT_MIN, INT_MAX. lia.
  - destruct (Pop s) as [[v s1]|u]; simpl; [|discriminate].
    intros H. inversion H. apply to_int_range.
Qed.

Lemma main_int_range_witness : INT_MIN <= 1 <= INT_MAX.
Proof. apply (main_int_range ["4294967297"]%string). reflexivity. Defined.

(** A trailing digit-only operand decides the result: if the earlier
    arguments ran without undefined behaviour and left at most 99 values,
    [main] returns the last operand's value reduced to [int], whatever is
    below it. *)
Theorem main_trailing_operand (ts : list string) (s : state) (t : string) :
  run init ts = Ok s -> stack_ptr s <= 98 -> small_operand t = true ->
  main (ts ++ [t]) = Ok (to_int (denote t)).
Proof.
  intros Hrun Hp Ht.
  pose proof (run_range init s ts ltac:(cbn [stack_ptr init]; lia) Hrun) as Hr.
  assert (Hd : digits_only t = true)
    by (unfold small_operand in Ht; apply andb_true_iff in Ht; tauto).
  destruct (digits_strcmp t Hd) as [H1 H2].
  unfold main. rewrite run_app, Hrun. cbn [bind run].
  rewrite (step_operand s t H1 H2), (atol_small t Ht). cbn [bind].
  rewrite Push_ok by lia. cbn [bind run].
  unfold finish. cbn [stack_ptr stack].
  replace (stack_ptr s + 1 <? 0) with false by (symmetry; apply Z.ltb_ge; lia).
  rewrite Pop_ok by (cbn [stack_ptr]; lia). cbn [bind stack stack_ptr].
  unfold upd. rewrite Z.eqb_refl. reflexivity.
Qed.

Lemma main_trailing_operand_witness :
  main (["3"; "4"; "+"]%string ++ ["9"%string]) = Ok (to_int 9).
Proof.
  apply (main_trailing_operand ["3"; "4"; "+"]%string
           (mkState 0 (upd (upd (upd (fun _ => 0) 0 3) 1 4) 0 7)) "9");
  [reflexivity | simpl; lia | reflexivity].
Defined.
